(** * Token: a text span with a type tag (reference/XML/token.inl)

    The inline member functions of class [Token] are embedded as
    computations in a state monad over the receiver's three data members.
    Objects live in a store indexed by address, so that statements about
    several tokens, and about values read out of a token before it is
    mutated, can be made. *)

From Stdlib Require Import NArith.
From stdpp Require Import base gmap.

Module XML.

(** ** Scalar types and the text span *)

(** Modelled from the spec: the typedefs [cString], [uInt] and [uInt2] are
    declared in token.h and the headers it includes, which are not in
    the repository beside token.inl.  The spec describes the buffer as a
    read-only reference into a character sequence, the length as a
    non-negative integer and the type as a small unsigned integer.  A pointer is the address it holds, [0]
    being the null pointer; the unsigned integers are naturals.  No
    member function does arithmetic on any of them, so no width and no
    wrap-around enters the model. *)
Definition cString : Type := N.
Definition uInt : Type := N.
Definition uInt2 : Type := N.

Definition NULL : cString := 0%N.

(** Modelled from the spec: class [Text] is declared outside token.inl.
    The spec gives it as a pure value carrier built from a
    [(start, length)] pair, without validation, and read back as that
    pair.  [mkText b l] stands for the constructor call [Text (b, l)]. *)
Record Text : Type := mkText {
  text_start : cString;
  text_length : uInt
}.

(** The data members named by token.inl: [m_buffer], [m_length], [m_type]. *)
Record Token : Type := mkToken {
  m_buffer : cString;
  m_length : uInt;
  m_type : uInt2
}.

(** ** Member functions as state computations on the receiver *)

(** A member function body reads and writes the members of [*this] and
    returns a value. *)
Definition method (A : Type) : Type := Token → A * Token.

#[global] Instance method_ret : MRet method := λ A a this, (a, this).

#[global] Instance method_bind : MBind method :=
  λ A B k m this, k (m this).1 (m this).2.

(** Reading a member, and assigning to one member. *)
Definition rd {A : Type} (member : Token → A) : method A :=
  λ this, (member this, this).

Definition wr_buffer (v : cString) : method unit :=
  λ this, (tt, mkToken v (m_length this) (m_type this)).

Definition wr_length (v : uInt) : method unit :=
  λ this, (tt, mkToken (m_buffer this) v (m_type this)).

Definition wr_type (v : uInt2) : method unit :=
  λ this, (tt, mkToken (m_buffer this) (m_length this) v).

(** [Token::Token (void) { }]: no member initialiser and an empty body.
    The three members are scalars, so each keeps whatever its storage
    held when the object came into being. *)
Definition Token_ctor_void : method unit := mret tt.

(** [Token::Token (cString buffer, uInt length, uInt2 type) :
      m_buffer (buffer), m_length (length), m_type (type) { }].
    Each member is initialised from its own parameter, so the order in
    which the class declares them does not matter. *)
Definition Token_ctor (buffer : cString) (length : uInt) (type : uInt2)
  : method unit :=
  wr_buffer buffer;; wr_length length;; wr_type type.

(** [m_buffer = buffer; m_length = length;] *)
Definition SetText (buffer : cString) (length : uInt) : method unit :=
  wr_buffer buffer;; wr_length length.

(** [return Text (m_buffer, m_length);] *)
Definition GetText : method Text :=
  b ← rd m_buffer; l ← rd m_length; mret (mkText b l).

(** [m_type = type;] *)
Definition SetType (type : uInt2) : method unit := wr_type type.

(** [return m_type;] *)
Definition GetType : method uInt2 := rd m_type.

(** The value a call returns, and the receiver it leaves behind. *)
Definition result {A : Type} (m : method A) (this : Token) : A := (m this).1.
Definition after {A : Type} (m : method A) (this : Token) : Token := (m this).2.

(** A constructor runs on the storage of the new object; [raw] is what
    that storage holds beforehand. *)
Definition construct (ctor : method unit) (raw : Token) : Token :=
  after ctor raw.

(** What a client can see of a token: the two getters. *)
Definition observe (t : Token) : Text * uInt2 :=
  (result GetText t, result GetType t).

(** The two mutating member functions, as data, and runs of them. *)
Inductive mutation : Type :=
  | CallSetText (buffer : cString) (length : uInt)
  | CallSetType (type : uInt2).

Definition mutate (μ : mutation) : method unit :=
  match μ with
  | CallSetText buffer length => SetText buffer length
  | CallSetType type => SetType type
  end.

Fixpoint mutate_all (μs : list mutation) : method unit :=
  match μs with
  | [] => mret tt
  | μ :: μs' => mutate μ;; mutate_all μs'
  end.


(** [GetText ()] then [GetType ()], as a client reads a token. *)
Definition GetBoth : method (Text * uInt2) :=
  s ← GetText; ty ← GetType; mret (s, ty).

(** ** Objects in a store *)

Definition loc : Type := positive.

(** A program runs on the store of live tokens; it has no outcome when it
    calls a member function through an address that holds no token. *)
Definition prog (A : Type) : Type :=
  gmap loc Token → option (A * gmap loc Token).

#[global] Instance prog_ret : MRet prog := λ A a σ, Some (a, σ).

#[global] Instance prog_bind : MBind prog :=
  λ A B k p σ, match p σ with
               | Some (a, σ') => k a σ'
               | None => None
               end.

(** [l->m (...)]: run the body on the token at [l], write the receiver back. *)
Definition invoke {A : Type} (l : loc) (m : method A) : prog A :=
  λ σ, match σ !! l with
       | Some this => Some (result m this, <[l := after m this]> σ)
       | None => None
       end.

(** A new object at a fresh address whose storage holds [raw], set up by
    [ctor]. *)
Definition create (raw : Token) (ctor : method unit) : prog loc :=
  λ σ, let l := fresh (dom σ) in Some (l, <[l := construct ctor raw]> σ).

(** The value a program yields, when it has an outcome. *)
Definition value {A : Type} (p : prog A) (σ : gmap loc Token) : option A :=
  fst <$> p σ.

(** [l->GetText ()] then [l->GetType ()]. *)
Definition look (l : loc) : prog (Text * uInt2) :=
  s ← invoke l GetText; ty ← invoke l GetType; mret (s, ty).

(** ** Sample data

    A five-character buffer at address [4096], one token over its first
    four characters and one over its last four, so that the two spans
    overlap, and a store holding both. *)
Definition sample_buffer : cString := 4096%N.

Definition sample_head : Token := mkToken sample_buffer 4%N 1%N.
Definition sample_tail : Token := mkToken (sample_buffer + 1)%N 4%N 2%N.

Definition sample_store : gmap loc Token :=
  {[ 1%positive := sample_head; 2%positive := sample_tail ]}.

(** Two pieces of storage with different contents. *)
Definition storage_zero : Token := mkToken NULL 0%N 0%N.
Definition storage_used : Token := mkToken sample_buffer 5%N 7%N.

(** Whether a run of calls holds a call of [SetText], of [SetType]. *)
Definition is_SetText (μ : mutation) : bool :=
  match μ with
  | CallSetText _ _ => true
  | CallSetType _ => false
  end.

Definition is_SetType (μ : mutation) : bool :=
  match μ with
  | CallSetText _ _ => false
  | CallSetType _ => true
  end.

Definition has_SetText (μs : list mutation) : bool := existsb is_SetText μs.
Definition has_SetType (μs : list mutation) : bool := existsb is_SetType μs.

(** ** Counting member accesses

    The six bodies once more, run with a count of the reads and writes of
    data members they make.  [access] is one read or one write, counted
    as one step; a body that ends without an access counts none, and
    sequencing adds the counts.  The call [Text (m_buffer, m_length)] in
    [GetText] builds the pair and is not a member access. *)
Definition counted (A : Type) : Type := Token → (A * Token) * nat.

#[global] Instance counted_ret : MRet counted := λ A a this, ((a, this), 0).

#[global] Instance counted_bind : MBind counted :=
  λ A B k c this,
    let r := c this in
    let r' := k r.1.1 r.1.2 in
    (r'.1, r.2 + r'.2).








(** ** Basic facts about calls *)

Section Calls.
Context {A : Type}.
Implicit Types (m : method A) (this : Token) (l : loc).

(** A call through an address that holds a token has an outcome, and the
    outcome is the body's. *)
Lemma invoke_live (σ : gmap loc Token) l this m :
  σ !! l = Some this →
  invoke l m σ = Some (result m this, <[l := after m this]> σ).
Proof. intros Hl. unfold invoke. by rewrite Hl. Qed.

Lemma invoke_dangling (σ : gmap loc Token) l m :
  σ !! l = None → invoke l m σ = None.
Proof. intros Hl. unfold invoke. by rewrite Hl. Qed.

(** A call on [l] leaves every other object as it was. *)
Lemma invoke_frame (σ σ' : gmap loc Token) l l' m (a : A) :
  l ≠ l' → invoke l m σ = Some (a, σ') → σ' !! l' = σ !! l'.
Proof.
  intros Hne. unfold invoke. destruct (σ !! l) as [this|]; [|done].
  intros [= _ <-]. by rewrite lookup_insert_ne.
Qed.
End Calls.

(** The address of a new object holds no token beforehand. *)
Lemma fresh_loc_unused (σ : gmap loc Token) : σ !! fresh (dom σ) = None.
Proof. apply not_elem_of_dom, is_fresh. Qed.

Lemma after_bind {A B : Type} (m : method A) (k : A → method B) this :
  after (m ≫= k) this = after (k (result m this)) (after m this).
Proof. reflexivity. Qed.

Lemma result_bind {A B : Type} (m : method A) (k : A → method B) this :
  result (m ≫= k) this = result (k (result m this)) (after m this).
Proof. reflexivity. Qed.

(** The getters are [const]: they leave the receiver as it was. *)
Lemma GetText_const this : after GetText this = this.
Proof. reflexivity. Qed.

Lemma GetType_const this : after GetType this = this.
Proof. reflexivity. Qed.

(** What each getter returns, in terms of the members. *)
Lemma GetText_result this :
  result GetText this = mkText (m_buffer this) (m_length this).
Proof. reflexivity. Qed.

Lemma GetType_result this : result GetType this = m_type this.
Proof. reflexivity. Qed.

(** What each mutator leaves behind. *)
Lemma SetText_after buffer length this :
  after (SetText buffer length) this = mkToken buffer length (m_type this).
Proof. reflexivity. Qed.

Lemma SetType_after type this :
  after (SetType type) this = mkToken (m_buffer this) (m_length this) type.
Proof. reflexivity. Qed.

Lemma Token_ctor_after buffer length type raw :
  construct (Token_ctor buffer length type) raw = mkToken buffer length type.
Proof. reflexivity. Qed.

Lemma Token_ctor_void_after raw : construct Token_ctor_void raw = raw.
Proof. reflexivity. Qed.


Lemma GetBoth_const this : after GetBoth this = this.
Proof. reflexivity. Qed.

Lemma GetBoth_result this : result GetBoth this = observe this.
Proof. reflexivity. Qed.

(** A token is determined by what the getters show of it. *)
Lemma observe_inj t1 t2 : observe t1 = observe t2 → t1 = t2.
Proof. destruct t1, t2. cbv. congruence. Qed.

Lemma prog_bind_Some {A B : Type} (p : prog A) (k : A → prog B)
    (σ σ' : gmap loc Token) (a : A) :
  p σ = Some (a, σ') → (p ≫= k) σ = k a σ'.
Proof. intros Hp. unfold mbind, prog_bind. by rewrite Hp. Qed.

(** A [const] member function leaves the whole store as it was. *)
Lemma invoke_const {A : Type} (m : method A) (σ : gmap loc Token) l this :
  after m this = this → σ !! l = Some this →
  invoke l m σ = Some (result m this, σ).
Proof.
  intros Hconst Hl. rewrite (invoke_live _ _ _ _ Hl), Hconst.
  by rewrite insert_id.
Qed.

Lemma look_live (σ : gmap loc Token) l this :
  σ !! l = Some this → look l σ = Some (observe this, σ).
Proof.
  intros Hl. unfold look.
  rewrite (prog_bind_Some _ _ _ _ _ (invoke_const _ _ _ _ (GetText_const this) Hl)).
  rewrite (prog_bind_Some _ _ _ _ _ (invoke_const _ _ _ _ (GetType_const this) Hl)).
  reflexivity.
Qed.

(** ** Construction and the accessors *)

(** C1. For every buffer pointer [start], [length] and [type], on any
    storage, the token built by the three-argument constructor returns
    the span [(start, length)] from [GetText] and [type] from [GetType]. *)
Theorem Token_ctor_then_get (raw : Token) (start : cString) (length : uInt)
    (type : uInt2) :
  result (GetText) (construct (Token_ctor start length type) raw)
    = mkText start length ∧
  result (GetType) (construct (Token_ctor start length type) raw) = type.
Proof. by rewrite Token_ctor_after, GetText_result, GetType_result. Qed.

(** C3. For every token and every [(start2, length2)], [SetText] followed
    by the two getters returns exactly the span [(start2, length2)] and
    the type the token had before the call. *)
Theorem SetText_then_get (t : Token) (start2 : cString) (length2 : uInt) :
  result (SetText start2 length2;; GetBoth) t
    = (mkText start2 length2, result GetType t).
Proof.
  rewrite result_bind, GetBoth_result, SetText_after. reflexivity.
Qed.

(** C4. For every token and every [type2], [SetType] followed by the two
    getters returns [type2] and the span the token had before the call. *)
Theorem SetType_then_get (t : Token) (type2 : uInt2) :
  result (SetType type2;; GetBoth) t = (result GetText t, type2).
Proof.
  rewrite result_bind, GetBoth_result, SetType_after. reflexivity.
Qed.

(** C5. The three-argument constructor and default construction followed
    by [SetText] and [SetType] give tokens that the getters cannot tell
    apart, whatever the storage of either object held; the two tokens are
    in fact equal. *)
Theorem Token_ctor_two_phase (raw raw' : Token) (start : cString)
    (length : uInt) (type : uInt2) :
  observe (construct (Token_ctor start length type) raw)
    = observe (after (SetText start length;; SetType type)
                     (construct Token_ctor_void raw')) ∧
  construct (Token_ctor start length type) raw
    = after (SetText start length;; SetType type)
            (construct Token_ctor_void raw').
Proof.
  assert (construct (Token_ctor start length type) raw
          = after (SetText start length;; SetType type)
                  (construct Token_ctor_void raw')) as Heq.
  { rewrite Token_ctor_after, Token_ctor_void_after, after_bind.
    rewrite SetType_after, SetText_after. reflexivity. }
  by rewrite Heq.
Qed.

(** ** Default construction *)



(** ** Values read out of a token, and other tokens *)

(** A span read before a call on the same token is the span of the token
    as it was; a span read after it is the span of the token as it is. *)
Lemma read_call_read (σ : gmap loc Token) l t (m : method unit) :
  σ !! l = Some t →
  (s ← invoke l GetText; invoke l m;; s' ← invoke l GetText; mret (s, s')) σ
    = Some ((result GetText t, result GetText (after m t)),
            <[l := after m t]> σ).
Proof.
  intros Hl.
  rewrite (prog_bind_Some _ _ _ _ _ (invoke_const _ _ _ _ (GetText_const t) Hl)).
  rewrite (prog_bind_Some _ _ _ _ _ (invoke_live _ _ _ m Hl)).
  assert ((<[l := after m t]> σ) !! l = Some (after m t)) as Hl'
    by apply lookup_insert_eq.
  rewrite (prog_bind_Some _ _ _ _ _
             (invoke_const _ _ _ _ (GetText_const (after m t)) Hl')).
  reflexivity.
Qed.

(** A call on one token, then a look at another one. *)
Lemma call_then_look_other (σ : gmap loc Token) l l' t t' (m : method unit) :
  l ≠ l' → σ !! l = Some t → σ !! l' = Some t' →
  (invoke l m;; look l') σ = Some (observe t', <[l := after m t]> σ).
Proof.
  intros Hne Hl Hl'.
  rewrite (prog_bind_Some _ _ _ _ _ (invoke_live _ _ _ m Hl)).
  apply look_live. by rewrite lookup_insert_ne.
Qed.

(** C6. [GetText] returns a value: the span [s] read from a token is the
    span the token had at the time of the call, whatever [SetText] and
    [SetType] calls are made on the token afterwards, while a later
    [GetText] returns the span as mutated.  In particular after
    [SetText (start2, length2)] the earlier [s] is still the old span and
    the later one is [(start2, length2)]. *)
Theorem GetText_returns_value (σ : gmap loc Token) (l : loc) (t : Token)
    (μs : list mutation) (start2 : cString) (length2 : uInt) :
  σ !! l = Some t →
  (s ← invoke l GetText; invoke l (mutate_all μs);;
   s' ← invoke l GetText; mret (s, s')) σ
    = Some ((mkText (m_buffer t) (m_length t),
             result GetText (after (mutate_all μs) t)),
            <[l := after (mutate_all μs) t]> σ) ∧
  (s ← invoke l GetText; invoke l (SetText start2 length2);;
   s' ← invoke l GetText; mret (s, s')) σ
    = Some ((mkText (m_buffer t) (m_length t), mkText start2 length2),
            <[l := mkToken start2 length2 (m_type t)]> σ).
Proof.
  intros Hl. split.
  - by rewrite (read_call_read _ _ _ _ Hl).
  - by rewrite (read_call_read _ _ _ _ Hl).
Qed.

(** C7. For two tokens at different addresses, whatever their spans
    (overlapping ones included), any run of [SetText] and [SetType] calls
    on one leaves what [GetText] and [GetType] return on the other as it
    was, in both directions. *)
Theorem distinct_tokens_do_not_interfere (σ : gmap loc Token) (l1 l2 : loc)
    (t1 t2 : Token) (μs : list mutation) :
  l1 ≠ l2 → σ !! l1 = Some t1 → σ !! l2 = Some t2 →
  (value (invoke l1 (mutate_all μs);; look l2) σ = value (look l2) σ ∧
   value (look l2) σ = Some (observe t2)) ∧
  (value (invoke l2 (mutate_all μs);; look l1) σ = value (look l1) σ ∧
   value (look l1) σ = Some (observe t1)).
Proof.
  intros Hne H1 H2. unfold value.
  rewrite (call_then_look_other _ _ _ _ _ _ Hne H1 H2).
  rewrite (call_then_look_other _ _ _ _ _ _ (not_eq_sym Hne) H2 H1).
  by rewrite (look_live _ _ _ H1), (look_live _ _ _ H2).
Qed.

(** ** No error path, termination, no normalisation *)

(** C8. No member function has an error path.  Called on a token, with
    any arguments whatever (no condition is put on [type], [buffer] or
    [length]), each of [SetType], [SetText], [GetText], [GetType] has an
    outcome, stores or returns the values untouched; both constructors
    succeed on any storage. *)
Theorem no_error_path (σ : gmap loc Token) (l : loc) (t : Token) :
  σ !! l = Some t →
  ∀ (buffer : cString) (length : uInt) (type : uInt2) (raw : Token),
    invoke l (SetType type) σ
      = Some (tt, <[l := mkToken (m_buffer t) (m_length t) type]> σ) ∧
    invoke l (SetText buffer length) σ
      = Some (tt, <[l := mkToken buffer length (m_type t)]> σ) ∧
    invoke l GetText σ = Some (mkText (m_buffer t) (m_length t), σ) ∧
    invoke l GetType σ = Some (m_type t, σ) ∧
    create raw Token_ctor_void σ
      = Some (fresh (dom σ), <[fresh (dom σ) := raw]> σ) ∧
    create raw (Token_ctor buffer length type) σ
      = Some (fresh (dom σ),
              <[fresh (dom σ) := mkToken buffer length type]> σ).
Proof.
  intros Hl buffer length type raw. repeat split.
  - by rewrite (invoke_live _ _ _ _ Hl).
  - by rewrite (invoke_live _ _ _ _ Hl).
  - by rewrite (invoke_const _ _ _ _ (GetText_const t) Hl).
  - by rewrite (invoke_const _ _ _ _ (GetType_const t) Hl).
Qed.


(** C10. [SetText] and the three-argument constructor store the pair
    [(buffer, length)] as given, and [GetText] returns it as given; no
    relation between the two is enforced.  A null buffer with a non-zero
    length and a zero length with any buffer are stored and returned
    like any other pair. *)
Theorem span_stored_verbatim (raw t : Token) (buffer : cString)
    (length : uInt) (type : uInt2) :
  (m_buffer (after (SetText buffer length) t) = buffer ∧
   m_length (after (SetText buffer length) t) = length ∧
   result GetText (after (SetText buffer length) t) = mkText buffer length) ∧
  (m_buffer (construct (Token_ctor buffer length type) raw) = buffer ∧
   m_length (construct (Token_ctor buffer length type) raw) = length ∧
   result GetText (construct (Token_ctor buffer length type) raw)
     = mkText buffer length) ∧
  (result GetText (after (SetText NULL (N.succ length)) t)
     = mkText NULL (N.succ length) ∧
   result GetText (construct (Token_ctor NULL (N.succ length) type) raw)
     = mkText NULL (N.succ length)) ∧
  (result GetText (after (SetText buffer 0%N) t) = mkText buffer 0%N ∧
   result GetText (construct (Token_ctor buffer 0%N type) raw)
     = mkText buffer 0%N).
Proof.
  rewrite !SetText_after, !Token_ctor_after, !GetText_result. by cbn.
Qed.

(** ** The theorems at the sample data *)

(** A span read from the head token, before it is moved one character on. *)
Lemma GetText_returns_value_witness :
  (s ← invoke 1%positive GetText;
   invoke 1%positive (SetText (sample_buffer + 1)%N 3%N);;
   s' ← invoke 1%positive GetText; mret (s, s')) sample_store
    = Some ((mkText sample_buffer 4%N, mkText (sample_buffer + 1)%N 3%N),
            <[1%positive := mkToken (sample_buffer + 1)%N 3%N 1%N]>
              sample_store).
Proof.
  apply (GetText_returns_value sample_store 1%positive sample_head
           [CallSetType 9%N] (sample_buffer + 1)%N 3%N).
  reflexivity.
Defined.

(** The head token is mutated; the tail token, whose span overlaps the
    head's, reads as before. *)
Lemma distinct_tokens_do_not_interfere_witness :
  value (invoke 1%positive
           (mutate_all [CallSetText (sample_buffer + 2)%N 3%N; CallSetType 9%N]);;
         look 2%positive) sample_store
    = value (look 2%positive) sample_store ∧
  value (look 2%positive) sample_store
    = Some (mkText (sample_buffer + 1)%N 4%N, 2%N).
Proof.
  apply (distinct_tokens_do_not_interfere sample_store 1%positive 2%positive
           sample_head sample_tail
           [CallSetText (sample_buffer + 2)%N 3%N; CallSetType 9%N]).
  - discriminate.
  - reflexivity.
  - reflexivity.
Defined.

(** A type outside any small enumeration, and a null buffer with a
    non-zero length, are stored as given. *)
Lemma no_error_path_witness :
  invoke 2%positive (SetType 65535%N) sample_store
    = Some (tt, <[2%positive := mkToken (sample_buffer + 1)%N 4%N 65535%N]>
                  sample_store) ∧
  invoke 2%positive (SetText NULL 7%N) sample_store
    = Some (tt, <[2%positive := mkToken NULL 7%N 2%N]> sample_store).
Proof.
  pose proof (no_error_path sample_store 2%positive sample_tail eq_refl
                NULL 7%N 65535%N storage_used) as (Hty & Htx & _).
  exact (conj Hty Htx).
Defined.

(** ** Runs of setter calls *)

Lemma mutate_all_cons (μ : mutation) (μs : list mutation) t :
  after (mutate_all (μ :: μs)) t = after (mutate_all μs) (after (mutate μ) t).
Proof. reflexivity. Qed.

Lemma mutate_all_app (μs νs : list mutation) t :
  after (mutate_all (μs ++ νs)) t
    = after (mutate_all νs) (after (mutate_all μs) t).
Proof.
  revert t. induction μs as [|μ μs IH]; intros t; [done|].
  rewrite <- app_comm_cons, !mutate_all_cons. apply IH.
Qed.

(** A run without [SetText] keeps the span, one without [SetType] the type. *)
Lemma run_keeps_span (μs : list mutation) t :
  has_SetText μs = false →
  result GetText (after (mutate_all μs) t) = result GetText t.
Proof.
  revert t. induction μs as [|μ μs IH]; intros t Hno; [done|].
  destruct μ as [buffer length|type]; [done|].
  rewrite mutate_all_cons, (IH _ Hno). reflexivity.
Qed.

Lemma run_keeps_type (μs : list mutation) t :
  has_SetType μs = false →
  result GetType (after (mutate_all μs) t) = result GetType t.
Proof.
  revert t. induction μs as [|μ μs IH]; intros t Hno; [done|].
  destruct μ as [buffer length|type]; [|done].
  rewrite mutate_all_cons, (IH _ Hno). reflexivity.
Qed.

(** A run with a [SetText] fixes the span, one with a [SetType] the type,
    whatever the token was before. *)
Lemma run_fixes_span (μs : list mutation) t t' :
  has_SetText μs = true →
  result GetText (after (mutate_all μs) t)
    = result GetText (after (mutate_all μs) t').
Proof.
  revert t t'. induction μs as [|μ μs IH]; intros t t' Hhas; [done|].
  rewrite !mutate_all_cons.
  destruct (has_SetText μs) eqn:Hrest; [by apply IH|].
  rewrite !run_keeps_span by done.
  destruct μ as [buffer length|type]; [done|].
  cbn in Hhas. unfold has_SetText in Hrest. congruence.
Qed.

Lemma run_fixes_type (μs : list mutation) t t' :
  has_SetType μs = true →
  result GetType (after (mutate_all μs) t)
    = result GetType (after (mutate_all μs) t').
Proof.
  revert t t'. induction μs as [|μ μs IH]; intros t t' Hhas; [done|].
  rewrite !mutate_all_cons.
  destruct (has_SetType μs) eqn:Hrest; [by apply IH|].
  rewrite !run_keeps_type by done.
  destruct μ as [buffer length|type]; [|done].
  cbn in Hhas. unfold has_SetType in Hrest. congruence.
Qed.

(** X1. A setter overwrites what an earlier call of the same setter
    stored: of two [SetText] calls in a row only the second shows, and
    likewise for [SetType]. *)
Theorem setter_overwrites (t : Token) (buffer1 buffer2 : cString)
    (length1 length2 : uInt) (type1 type2 : uInt2) :
  after (SetText buffer1 length1;; SetText buffer2 length2) t
    = after (SetText buffer2 length2) t ∧
  after (SetType type1;; SetType type2) t = after (SetType type2) t.
Proof. by rewrite !after_bind, !SetText_after, !SetType_after. Qed.

(** X2. [SetText] and [SetType] commute: called in either order they
    leave the same token. *)
Theorem SetText_SetType_commute (t : Token) (buffer : cString)
    (length : uInt) (type : uInt2) :
  after (SetText buffer length;; SetType type) t
    = after (SetType type;; SetText buffer length) t.
Proof. by rewrite !after_bind, !SetText_after, !SetType_after. Qed.

(** X3. Writing back what the getters returned changes nothing: if
    [GetText] returns the span [(buffer, length)] and [GetType] returns
    [type], then [SetText (buffer, length)], [SetType (type)], and both
    in a row each leave the token as it was. *)
Theorem write_back_is_noop (t : Token) (buffer : cString) (length : uInt)
    (type : uInt2) :
  result GetText t = mkText buffer length →
  result GetType t = type →
  after (SetText buffer length) t = t ∧
  after (SetType type) t = t ∧
  after (SetText buffer length;; SetType type) t = t.
Proof.
  destruct t as [b l ty]. rewrite GetText_result, GetType_result. cbn.
  intros [= <- <-] <-. done.
Qed.

(** X4. After any run of setter calls, [GetText] returns the arguments
    of the last [SetText] call in the run, whatever came before it and
    whatever [SetType] calls came after it. *)
Theorem GetText_after_run (t : Token) (μs νs : list mutation)
    (buffer : cString) (length : uInt) :
  has_SetText νs = false →
  result GetText (after (mutate_all (μs ++ CallSetText buffer length :: νs)) t)
    = mkText buffer length.
Proof.
  intros Hno. rewrite mutate_all_app, mutate_all_cons.
  by rewrite (run_keeps_span _ _ Hno).
Qed.

(** X5. After any run of setter calls, [GetType] returns the argument of
    the last [SetType] call in the run, whatever came before it and
    whatever [SetText] calls came after it. *)
Theorem GetType_after_run (t : Token) (μs νs : list mutation)
    (type : uInt2) :
  has_SetType νs = false →
  result GetType (after (mutate_all (μs ++ CallSetType type :: νs)) t) = type.
Proof.
  intros Hno. rewrite mutate_all_app, mutate_all_cons.
  by rewrite (run_keeps_type _ _ Hno).
Qed.

(** X6. A run of setter calls without a [SetText] leaves what [GetText]
    returns as it was, however many [SetType] calls it makes; a run
    without a [SetType] leaves what [GetType] returns as it was. *)
Theorem run_leaves_other_member (t : Token) (μs : list mutation) :
  (has_SetText μs = false →
   result GetText (after (mutate_all μs) t) = result GetText t) ∧
  (has_SetType μs = false →
   result GetType (after (mutate_all μs) t) = result GetType t).
Proof. split; [apply run_keeps_span | apply run_keeps_type]. Qed.

(** X7. A run of setter calls that holds at least one [SetText] and at
    least one [SetType], in any order and any number, leaves a token
    that does not depend on what the token was before; run on a
    default-constructed token it gives the same token on any storage. *)
Theorem run_with_both_setters_forgets (μs : list mutation) (t t' : Token) :
  has_SetText μs = true → has_SetType μs = true →
  after (mutate_all μs) t = after (mutate_all μs) t' ∧
  after (mutate_all μs) (construct Token_ctor_void t)
    = after (mutate_all μs) (construct Token_ctor_void t').
Proof.
  intros Htext Htype.
  assert (after (mutate_all μs) t = after (mutate_all μs) t') as Heq.
  { apply observe_inj. unfold observe.
    by rewrite (run_fixes_span _ t t' Htext), (run_fixes_type _ t t' Htype). }
  by rewrite !Token_ctor_void_after.
Qed.

(** ** The run theorems at the sample data *)

(** The head token set to the span and type it already has. *)
Lemma write_back_is_noop_witness :
  after (SetText sample_buffer 4%N;; SetType 1%N) sample_head = sample_head.
Proof.
  apply (write_back_is_noop sample_head sample_buffer 4%N 1%N);
    reflexivity.
Defined.

(** Two [SetText] calls, then a [SetType]: the second span shows. *)
Lemma GetText_after_run_witness :
  result GetText
    (after (mutate_all ([CallSetText NULL 9%N]
                        ++ CallSetText (sample_buffer + 2)%N 3%N
                        :: [CallSetType 5%N])) sample_head)
    = mkText (sample_buffer + 2)%N 3%N.
Proof.
  apply (GetText_after_run sample_head [CallSetText NULL 9%N]
           [CallSetType 5%N]).
  reflexivity.
Defined.

(** Two [SetType] calls, then a [SetText]: the second type shows. *)
Lemma GetType_after_run_witness :
  result GetType
    (after (mutate_all ([CallSetType 5%N]
                        ++ CallSetType 6%N
                        :: [CallSetText NULL 9%N])) sample_tail)
    = 6%N.
Proof.
  apply (GetType_after_run sample_tail [CallSetType 5%N]
           [CallSetText NULL 9%N]).
  reflexivity.
Defined.

(** Runs of one setter only, on the tail token. *)
Lemma run_leaves_other_member_witness :
  result GetText
    (after (mutate_all [CallSetType 5%N; CallSetType 6%N]) sample_tail)
    = mkText (sample_buffer + 1)%N 4%N ∧
  result GetType
    (after (mutate_all [CallSetText NULL 9%N; CallSetText sample_buffer 1%N])
           sample_tail)
    = 2%N.
Proof.
  split.
  - apply (run_leaves_other_member sample_tail
             [CallSetType 5%N; CallSetType 6%N]).
    reflexivity.
  - apply (run_leaves_other_member sample_tail
             [CallSetText NULL 9%N; CallSetText sample_buffer 1%N]).
    reflexivity.
Defined.

(** [SetType] then [SetText] on two default-constructed tokens whose
    storage differs. *)
Lemma run_with_both_setters_forgets_witness :
  after (mutate_all [CallSetType 5%N; CallSetText sample_buffer 1%N])
        (construct Token_ctor_void storage_zero)
    = after (mutate_all [CallSetType 5%N; CallSetText sample_buffer 1%N])
            (construct Token_ctor_void storage_used).
Proof.
  apply (run_with_both_setters_forgets
           [CallSetType 5%N; CallSetText sample_buffer 1%N]
           storage_zero storage_used);
    reflexivity.
Defined.

End XML.
